(** * ClamSense API: the PSS-10 survey scorer and the heuristic risk estimator

    A shallow embedding of the two computational endpoints of [main.py]
    ([pss10_score] and [predict]) together with the request validation that
    the pydantic models declare, and of the diagnostic endpoint
    ([test_database]), with the properties the specification states about
    them and further properties read off the code.

    Conventions.
    - Python [int] is unbounded: it is [Z].
    - Python [float] is read as an exact rational ([Q]); sums, products and
      quotients are the exact ones, and an [int] used as a [float] keeps its
      value.  The rounding of intermediate results to binary64, and the
      finite range of binary64, are outside this model; numeric equalities
      are stated with [==] (equality of rationals).
    - Python's [min] and [max] return one of their arguments, chosen by one
      comparison; they are written out that way ([py_min], [py_max]).
    - A request body that fails the pydantic constraints is answered by the
      framework with status 422 before the endpoint function runs.
    - The diagnostic endpoint runs against what the outside gives it: the
      outcome of the import, of each access to the database object, and the
      environment variables, with exceptions as values. *)

From Stdlib Require Import ZArith QArith Qround Qabs Qminmax Lia Lqa Bool String List.
From stdpp Require Import base gmap sets list strings.
Import ListNotations.

#[local] Open Scope string_scope.
#[local] Open Scope Z_scope.

(** ** Shared vocabulary *)





(** What an endpoint answers: a body with status 200, or the framework's
    validation error (status 422). *)
Inductive http (A : Type) : Type :=
  | Ok200 (body : A)
  | Unprocessable422.
Arguments Ok200 {A} body.
Arguments Unprocessable422 {A}.

(** [enumerate(l)]: the elements of [l] paired with their 0-based index. *)
Fixpoint enumerate_from {A : Type} (i : nat) (l : list A) : list (nat * A) :=
  match l with
  | [] => []
  | a :: l' => (i, a) :: enumerate_from (S i) l'
  end.

Definition enumerate {A : Type} (l : list A) : list (nat * A) :=
  enumerate_from 0 l.

(** [a in l] on a list of integers. *)
Definition py_in (a : Z) (l : list Z) : bool := existsb (Z.eqb a) l.

(** ** PSS-10 scoring *)

Module PSS10.

(** [REVERSE_SCORED = {3, 4, 6, 7}], 0-indexed. *)
Definition REVERSE_SCORED : gset nat := {[3; 4; 6; 7]}%nat.

Record PSS10Request : Type := { answers : list Z }.

Record PSS10Response : Type := {
  score : Z;
  band : string;
  explanation : string
}.

(** [min(4, max(0, int(a)))]; [int] is the identity on an integer. *)
Definition clamp_answer (a : Z) : Z := Z.min 4 (Z.max 0 a).

(** The body of the scoring loop: [score += (4 - a) if i in REVERSE_SCORED else a]. *)
Definition score_step (score : Z) (ia : nat * Z) : Z :=
  let '(i, a) := ia in
  score + (if bool_decide (i ∈ REVERSE_SCORED) then 4 - a else a).

(** ["low" if score <= 13 else "moderate" if score <= 26 else "high"] *)
Definition band_of_score (score : Z) : string :=
  if score <=? 13 then "low"
  else if score <=? 26 then "moderate"
  else "high".

Definition explanation_of_band (band : string) : string :=
  if String.eqb band "low" then "Low perceived stress"
  else if String.eqb band "moderate" then
    "Moderate perceived stress—consider regular check-ins"
  else
    "High perceived stress—try immediate coping tools and consider professional support".

Definition pss10_score (req : PSS10Request) : PSS10Response :=
  let answers :=
    if existsb (fun a => negb (py_in a [0; 1; 2; 3; 4])) (answers req)
    then map clamp_answer (answers req)
    else answers req in
  let score := fold_left score_step (enumerate answers) 0 in
  let band := band_of_score score in
  let explanation := explanation_of_band band in
  {| score := score; band := band; explanation := explanation |}.

(** [answers: List[int] = Field(..., min_items=10, max_items=10)] *)
Definition validate_PSS10Request (body : list Z) : option PSS10Request :=
  if (10 <=? length body)%nat && (length body <=? 10)%nat
  then Some {| answers := body |}
  else None.

(** [POST /survey/pss10/score] *)
Definition post_pss10_score (body : list Z) : http PSS10Response :=
  match validate_PSS10Request body with
  | Some req => Ok200 (pss10_score req)
  | None => Unprocessable422
  end.

(** *** The scoring rule in the specification's words

    Sum over positions 0..9 of [4 - a_i] for [i] in the reverse set and of
    [a_i] elsewhere. *)
Definition spec_reverse_positions : list nat := [3; 4; 6; 7]%nat.

Definition spec_contribution (i : nat) (a : Z) : Z :=
  if existsb (Nat.eqb i) spec_reverse_positions then 4 - a else a.

Definition spec_score (answers : list Z) : Z :=
  fold_right Z.add 0
    (map (fun i => spec_contribution i (nth i answers 0)) (seq 0 10)).

(** A valid answer set: every value in {0,1,2,3,4}. *)
Definition in_range (a : Z) : Prop := 0 <= a <= 4.

(** The nearest boundary of the range: below 0 becomes 0, above 4 becomes 4. *)
Definition nearest_in_range (a : Z) : Z :=
  if a <? 0 then 0 else if 4 <? a then 4 else a.

(** Ten answers that add up to [s], for [s] in 0..40: the positions are
    filled to 4 one after the other, a reverse-scored position holding the
    complement. *)
Definition answers_scoring (s : Z) : list Z :=
  let d (k : Z) := Z.max 0 (Z.min 4 (s - 4 * k)) in
  [d 0; d 1; d 2; 4 - d 3; 4 - d 4; d 5; 4 - d 6; 4 - d 7; d 8; d 9].

(** Every answer replaced by its mirror image on the 0..4 scale. *)
Definition complement_answers (body : list Z) : list Z :=
  map (fun a => 4 - a) body.

(** The effect of position [i] on the score: an answer counts negatively at
    a reverse-scored position. *)
Definition position_sign (i : nat) : Z :=
  if bool_decide (i ∈ REVERSE_SCORED) then -1 else 1.

End PSS10.

(** ** The heuristic risk estimator *)

Module Predict.

#[local] Open Scope Q_scope.

(** Comparison of two floats, as a boolean. *)
Definition Qltb (x y : Q) : bool :=
  match x ?= y with
  | Lt => true
  | _ => false
  end.

#[local] Infix "<?" := Qltb (at level 70, no associativity) : Q_scope.
#[local] Notation "x >? y" := (Qltb y x) (at level 70, no associativity) : Q_scope.

(** [min(a, b)] keeps [a] unless [b < a]; [max(a, b)] keeps [a] unless
    [b > a]. *)
Definition py_min (a b : Q) : Q := if b <? a then b else a.
Definition py_max (a b : Q) : Q := if b >? a then b else a.

(** [round(x, ndigits)]: the closest multiple of [10 ** -ndigits], a tie
    going to the even multiple. *)
Definition round_half_even (x : Q) : Z :=
  let f := Qfloor x in
  match (x - inject_Z f ?= 1 / 2)%Q with
  | Lt => f
  | Gt => (f + 1)%Z
  | Eq => if Z.even f then f else (f + 1)%Z
  end.

Definition py_round (x : Q) (ndigits : nat) : Q :=
  let scale := inject_Z (10 ^ Z.of_nat ndigits) in
  inject_Z (round_half_even (x * scale)) / scale.

Record PredictRequest : Type := {
  heart_rate : Q;
  sleep_hours : Q;
  steps : Z;
  day_of_week : Z;
  hour : Z;
  mood_score : Q;
  pss10_score : option Z
}.

Record PredictResponse : Type := {
  predicted_level : Q;
  risk_band : string;
  factors : list string
}.

(** The [Field] constraints of [PredictRequest]:
    [gt=0]; [ge=0, le=14]; [ge=0]; [ge=0, le=6]; [ge=0, le=23];
    [ge=0, le=1]; and [ge=0, le=40] on a [pss10_score] that is given. *)
Definition validate_PredictRequest (req : PredictRequest) : bool :=
  (heart_rate req >? 0)
  && (Qle_bool 0 (sleep_hours req) && Qle_bool (sleep_hours req) 14)
  && (0 <=? steps req)%Z
  && ((0 <=? day_of_week req)%Z && (day_of_week req <=? 6)%Z)
  && ((0 <=? hour req)%Z && (hour req <=? 23)%Z)
  && (Qle_bool 0 (mood_score req) && Qle_bool (mood_score req) 1)
  && match pss10_score req with
     | Some p => (0 <=? p)%Z && (p <=? 40)%Z
     | None => true
     end.

(** The local variables of [predict], each as a function of the request. *)

Definition hr_component (req : PredictRequest) : Q :=
  py_min 1.0 (py_max 0.0 ((heart_rate req - 55) / 55)).

Definition sleep_component (req : PredictRequest) : Q :=
  1.0 - py_min 1.0 (sleep_hours req / 8.0).

Definition steps_component (req : PredictRequest) : Q :=
  py_max 0.0 (1.0 - py_min 1.0 (inject_Z (steps req) / 8000)) * 0.4.

Definition mood_component (req : PredictRequest) : Q :=
  1.0 - mood_score req.

Definition circadian_component (req : PredictRequest) : Q :=
  if py_in (hour req) [10; 11; 15; 16]%Z then 0.15 else 0.0.

Definition baseline_component (req : PredictRequest) : Q :=
  let baseline_component := 0.0 in
  match pss10_score req with
  | Some p => py_min 1.0 (inject_Z p / 40.0) * 0.3
  | None => baseline_component
  end.

(** [risk] as first assigned (the weighted sum) ... *)
Definition risk_weighted (req : PredictRequest) : Q :=
  0.35 * hr_component req + 0.25 * sleep_component req
  + 0.15 * mood_component req + 0.10 * steps_component req
  + circadian_component req + baseline_component req.

(** ... and as reassigned: [risk = max(0.0, min(1.0, risk))]. *)
Definition risk (req : PredictRequest) : Q :=
  py_max 0.0 (py_min 1.0 (risk_weighted req)).

Definition band_of_risk (risk : Q) : string :=
  if risk <? 0.33 then "low"
  else if risk <? 0.66 then "moderate"
  else "high".

(** [if c: factors.append(tag)] *)
Definition append_if (c : bool) (tag : string) (factors : list string)
  : list string :=
  if c then factors ++ [tag] else factors.

Definition factors_of (req : PredictRequest) : list string :=
  let factors := [] in
  let factors := append_if (hr_component req >? 0.6) "elevated heart rate" factors in
  let factors := append_if (sleep_component req >? 0.6) "short sleep duration" factors in
  let factors := append_if (mood_component req >? 0.6) "low self-reported mood" factors in
  let factors := append_if (steps_component req >? 0.4) "very low activity" factors in
  let factors := append_if (circadian_component req >? 0) "typical peak hours" factors in
  let factors := append_if (baseline_component req >? 0.15) "high baseline stress" factors in
  factors.

Definition predict (req : PredictRequest) : PredictResponse :=
  let risk := risk req in
  let band := band_of_risk risk in
  let factors := factors_of req in
  {| predicted_level := py_round risk 3; risk_band := band; factors := factors |}.

(** [POST /predict] *)
Definition post_predict (req : PredictRequest) : http PredictResponse :=
  if validate_PredictRequest req then Ok200 (predict req) else Unprocessable422.

(** *** The estimator in the specification's words *)










(** The six tags, in the order in which their conditions are evaluated. *)
Definition FACTOR_TAGS : list string :=
  [ "elevated heart rate"; "short sleep duration"; "low self-reported mood";
    "very low activity"; "typical peak hours"; "high baseline stress" ].




(** The request of the specification's worked example. *)
Definition full_load : PredictRequest :=
  {| heart_rate := 110; sleep_hours := 0; steps := 0; day_of_week := 0;
     hour := 10; mood_score := 0; pss10_score := Some 40%Z |}.



(** The request with another baseline. *)
Definition with_pss10_score (req : PredictRequest) (p : option Z)
  : PredictRequest :=
  {| heart_rate := heart_rate req;
     sleep_hours := sleep_hours req;
     steps := steps req;
     day_of_week := day_of_week req;
     hour := hour req;
     mood_score := mood_score req;
     pss10_score := p |}.


End Predict.

(** ** The diagnostic endpoint *)

Module Diagnostics.

(** The values held by the response dictionary: [None], a string, a list.
    A Python string is a [string], one character each. *)
#[local] Set Warnings "-register-all".
Inductive value : Type :=
  | VNone
  | VStr (s : string)
  | VList (l : list value).

(** An exception: where it stands in the class hierarchy, and [str(e)]. *)
Inductive exn_class : Type :=
  | ImportError       (* an instance of ImportError *)
  | OtherException    (* an instance of Exception, not of ImportError *)
  | NotException.     (* a BaseException outside Exception *)

Record exn : Type := { class : exn_class; str : string }.

Definition is_ImportError (e : exn) : bool :=
  match class e with ImportError => true | _ => false end.

Definition is_Exception (e : exn) : bool :=
  match class e with NotException => false | _ => true end.

(** What evaluating an expression gives: a value, or a raised exception. *)
Inductive outcome (A : Type) : Type :=
  | Returns (a : A)
  | Raises (e : exn).
Arguments Returns {A} a.
Arguments Raises {A} e.

(** What the endpoint asks of the object [db]: [hasattr(db, 'name')],
    [db.name], and [db.list_collection_names()], which gives a list when it
    returns. *)
Record database : Type := {
  hasattr_name : outcome bool;
  name : outcome value;
  list_collection_names : outcome (list value)
}.

(** Statements: they update the dictionary [response] and may raise; what
    was stored before the exception stays stored. *)
Definition stmt (A : Type) : Type :=
  gmap string value -> gmap string value * outcome A.

Definition ret {A : Type} (a : A) : stmt A :=
  fun response => (response, Returns a).

Definition bind {A B : Type} (c : stmt A) (k : A -> stmt B) : stmt B :=
  fun response =>
    match c response with
    | (response', Returns a) => k a response'
    | (response', Raises e) => (response', Raises e)
    end.

#[local] Notation "x <- c ;; k" := (bind c (fun x => k))
  (at level 100, c at next level, right associativity).
#[local] Notation "c ;; k" := (bind c (fun _ => k))
  (at level 100, right associativity).

Definition eval {A : Type} (o : outcome A) : stmt A :=
  fun response => (response, o).

(** [response[key] = v] *)
Definition setitem (key : string) (v : value) : stmt unit :=
  fun response => (<[key := v]> response, Returns tt).

(** [try: body / except ...: handler]; [handler e] is [None] when no
    [except] clause matches [e], which then propagates. *)
Definition try_except (body : stmt unit) (handler : exn -> option (stmt unit))
  : stmt unit :=
  fun response =>
    match body response with
    | (response', Returns u) => (response', Returns u)
    | (response', Raises e) =>
        match handler e with
        | Some h => h response'
        | None => (response', Raises e)
        end
    end.

(** [os.getenv(key)] and the truth value of its result. *)
Definition getenv (environ : gmap string string) (key : string)
  : option string :=
  environ !! key.

Definition truthy (o : option string) : bool :=
  match o with
  | Some s => negb (String.eqb s "")
  | None => false
  end.

Definition initial_response : gmap string value :=
  <["backend" := VStr "✅ Running"]>
  (<["database" := VStr "❌ Not Available"]>
  (<["database_url" := VNone]>
  (<["database_name" := VNone]>
  (<["connection_status" := VStr "Not Connected"]>
  (<["collections" := VList []]> ∅))))).

(** The inner [try] block, on a [db] that is not [None]. *)
Definition list_collections (db : database) : stmt unit :=
  try_except
    (collections <- eval (list_collection_names db) ;;
     setitem "collections" (VList (take 10 collections)) ;;
     setitem "database" (VStr "✅ Connected & Working"))
    (fun e =>
       if is_Exception e then
         Some (setitem "database"
                 (VStr ("⚠️  Connected but Error: " ++ substring 0 50 (str e))))
       else None).

(** The outer [try] block; [import_db] is what [from database import db]
    gives. *)
Definition probe_database (import_db : outcome (option database)) : stmt unit :=
  try_except
    (db <- eval import_db ;;
     match db with
     | Some db =>
         setitem "database" (VStr "✅ Available") ;;
         setitem "database_url" (VStr "✅ Configured") ;;
         has <- eval (hasattr_name db) ;;
         n <- (if has : bool then eval (name db) else ret (VStr "✅ Connected")) ;;
         setitem "database_name" n ;;
         setitem "connection_status" (VStr "Connected") ;;
         list_collections db
     | None =>
         setitem "database" (VStr "⚠️  Available but not initialized")
     end)
    (fun e =>
       if is_ImportError e then
         Some (setitem "database" (VStr "❌ Database module not found (run enable-database first)"))
       else if is_Exception e then
         Some (setitem "database" (VStr ("❌ Error: " ++ substring 0 50 (str e))))
       else None).

(** [GET /test] *)
Definition test_database
  (import_db : outcome (option database)) (environ : gmap string string)
  : outcome (gmap string value) :=
  match probe_database import_db initial_response with
  | (response, Raises e) => Raises e
  | (response, Returns _) =>
      let response :=
        <["database_url" :=
            VStr (if truthy (getenv environ "DATABASE_URL")
                  then "✅ Set" else "❌ Not Set")]> response in
      let response :=
        <["database_name" :=
            VStr (if truthy (getenv environ "DATABASE_NAME")
                  then "✅ Set" else "❌ Not Set")]> response in
      Returns response
  end.

(** The keys of the response. *)
Definition response_keys : gset string :=
  {[ "backend"; "database"; "database_url"; "database_name";
     "connection_status"; "collections" ]}.


(** Reading the name of [db] raises nothing: it has no attribute [name],
    or it has one and [db.name] returns. *)
Definition name_is_read (db : database) : Prop :=
  hasattr_name db = Returns false
  \/ (hasattr_name db = Returns true /\ exists v, name db = Returns v).

(** A statement keeps a property of the dictionary, whether it returns or
    raises. *)
Definition preserves {A : Type} (P : gmap string value -> Prop) (c : stmt A)
  : Prop :=
  forall response response' o,
    P response -> c response = (response', o) -> P response'.

(** The property that the endpoint keeps: the six keys, the backend text,
    and at most ten collections. *)
Definition well_formed (response : gmap string value) : Prop :=
  dom response = response_keys
  /\ response !! "backend" = Some (VStr "✅ Running")
  /\ exists l, response !! "collections" = Some (VList l)
               /\ (length l <= 10)%nat.

End Diagnostics.

(** Case analysis on a run of [test_database]: on what the import gives and
    then on what is evaluated of the database, in the order of the code. *)
Ltac cases_exn e := destruct e as [[| |] ?].

Ltac run_test_database imp :=
  let h := fresh "h" in
  let n := fresh "n" in
  let l := fresh "l" in
  let e := fresh "e" in
  unfold Diagnostics.test_database, Diagnostics.probe_database,
    Diagnostics.list_collections, Diagnostics.try_except, Diagnostics.bind,
    Diagnostics.eval, Diagnostics.setitem, Diagnostics.ret;
  destruct imp as [[[h n l] |] | e];
  [ destruct h as [[|] | e];
    [ destruct n as [? | e];
      [ destruct l as [? | e]; [| cases_exn e] | cases_exn e ]
    | destruct l as [? | e]; [| cases_exn e]
    | cases_exn e ]
  |
  | cases_exn e ];
  cbn [Diagnostics.hasattr_name Diagnostics.name
       Diagnostics.list_collection_names Diagnostics.is_ImportError
       Diagnostics.is_Exception Diagnostics.class Diagnostics.str].

Ltac lookup_response :=
  unfold Diagnostics.initial_response;
  rewrite ?lookup_insert_ne by discriminate; rewrite ?lookup_insert_eq.

(** Two texts that differ within their first five characters. *)
Ltac differ H :=
  apply (f_equal (fun o => match o with
                           | Some (Diagnostics.VStr s) => substring 0 5 s
                           | _ => EmptyString
                           end)) in H;
  vm_compute in H; discriminate H.

(** [name_is_read], unfolded, for a database that is given. *)
Ltac prove_read :=
  first [ left; reflexivity
        | right; split; [reflexivity | eexists; reflexivity] ].

Ltac refute_read H :=
  cbn in H;
  first [ discriminate H
        | destruct H as [H | [H ?]]; try discriminate H;
          match goal with
          | H' : exists _, _ |- _ => destruct H' as [? H']; discriminate H'
          end ].

(** * Properties of the survey scorer *)

Module PSS10Facts.
Import PSS10.

(** The set constant, read as a list of positions. *)
Lemma reverse_scored_positions (i : nat) :
  bool_decide (i ∈ REVERSE_SCORED) = existsb (Nat.eqb i) spec_reverse_positions.
Proof.
  unfold REVERSE_SCORED, spec_reverse_positions.
  assert (Hmem : i ∈ ({[3; 4; 6; 7]} : gset nat)%nat
                 <-> In i [3; 4; 6; 7]%nat).
  { rewrite !elem_of_union, !elem_of_singleton. cbn [In]. lia. }
  destruct (existsb (Nat.eqb i) [3; 4; 6; 7]%nat) eqn:E.
  - apply bool_decide_eq_true_2, Hmem.
    apply existsb_exists in E as (k & Hk & Hik).
    apply Nat.eqb_eq in Hik. now subst k.
  - apply bool_decide_eq_false_2. intros Hin%Hmem.
    assert (Hex : existsb (Nat.eqb i) [3; 4; 6; 7]%nat = true).
    { apply existsb_exists. exists i. split; [assumption | apply Nat.eqb_refl]. }
    congruence.
Qed.

Lemma score_step_contribution (acc : Z) (i : nat) (a : Z) :
  score_step acc (i, a) = acc + spec_contribution i a.
Proof.
  unfold score_step, spec_contribution.
  now rewrite reverse_scored_positions.
Qed.

Lemma contribution_in_range (i : nat) (a : Z) :
  in_range a -> 0 <= spec_contribution i a <= 4.
Proof.
  unfold in_range, spec_contribution.
  destruct (existsb _ _); lia.
Qed.

(** The loop, started at index [i] with accumulator [acc], adds the
    contribution of every position. *)
Lemma fold_score_from (l : list Z) :
  forall (i : nat) (acc : Z),
    fold_left score_step (enumerate_from i l) acc
    = acc + fold_right Z.add 0
              (map (fun k => spec_contribution (i + k) (nth k l 0))
                   (seq 0 (length l))).
Proof.
  induction l as [| a l IH]; intros i acc.
  - cbn. lia.
  - cbn [enumerate_from fold_left length].
    rewrite IH, score_step_contribution.
    rewrite <- cons_seq, <- seq_shift.
    cbn [map fold_right nth]. rewrite map_map.
    rewrite Nat.add_0_r.
    rewrite (map_ext (fun k => spec_contribution (i + S k) (nth k l 0))
                     (fun k => spec_contribution (S i + k) (nth k l 0))).
    + lia.
    + intros k. now rewrite Nat.add_succ_r.
Qed.

Lemma fold_score_bounds (l : list Z) :
  Forall in_range l ->
  forall (i : nat) (acc : Z),
    acc <= fold_left score_step (enumerate_from i l) acc
        <= acc + 4 * Z.of_nat (length l).
Proof.
  induction 1 as [| a l Ha _ IH]; intros i acc.
  - cbn. lia.
  - cbn [enumerate_from fold_left length].
    specialize (IH (S i) (score_step acc (i, a))).
    rewrite score_step_contribution in *.
    pose proof (contribution_in_range i a Ha). lia.
Qed.

(** Clamping. *)
Lemma clamp_answer_in_range (a : Z) : in_range (clamp_answer a).
Proof. unfold in_range, clamp_answer. lia. Qed.

Lemma clamp_answer_id (a : Z) : in_range a -> clamp_answer a = a.
Proof. unfold in_range, clamp_answer. lia. Qed.

Lemma clamp_answers_in_range (l : list Z) : Forall in_range (map clamp_answer l).
Proof.
  induction l as [| a l IH]; cbn; constructor; auto using clamp_answer_in_range.
Qed.

Lemma clamp_answers_id (l : list Z) :
  Forall in_range l -> map clamp_answer l = l.
Proof.
  induction 1 as [| a l Ha _ IH]; cbn; [reflexivity |].
  now rewrite IH, clamp_answer_id.
Qed.

Lemma py_in_range (a : Z) : py_in a [0; 1; 2; 3; 4] = true <-> in_range a.
Proof.
  unfold py_in, in_range. cbn [existsb].
  rewrite !orb_true_iff, !Z.eqb_eq. lia.
Qed.

(** The test [any(a not in [0,1,2,3,4] ...)] fails exactly on valid lists. *)
Lemma no_answer_out_of_range (l : list Z) :
  existsb (fun a => negb (py_in a [0; 1; 2; 3; 4])) l = false
  <-> Forall in_range l.
Proof.
  induction l as [| a l IH].
  - cbn. split; [constructor | reflexivity].
  - cbn [existsb]. rewrite orb_false_iff, IH, negb_false_iff, py_in_range.
    split.
    + intros [Ha Hl]. now constructor.
    + intros H. inversion H; subst. now split.
Qed.

(** Whichever branch is taken, the answers that are scored are the clamped
    ones. *)
Lemma scored_answers (l : list Z) :
  (if existsb (fun a => negb (py_in a [0; 1; 2; 3; 4])) l
   then map clamp_answer l else l) = map clamp_answer l.
Proof.
  destruct (existsb _ l) eqn:E; [reflexivity |].
  apply no_answer_out_of_range in E.
  now rewrite clamp_answers_id.
Qed.

Lemma pss10_score_clamped (l : list Z) :
  pss10_score {| answers := l |}
  = pss10_score {| answers := map clamp_answer l |}.
Proof.
  unfold pss10_score. cbn [answers].
  rewrite !scored_answers.
  rewrite (clamp_answers_id (map clamp_answer l)); [reflexivity |].
  apply clamp_answers_in_range.
Qed.

Lemma score_of_ten (l : list Z) :
  length l = 10%nat ->
  score (pss10_score {| answers := l |}) = spec_score (map clamp_answer l).
Proof.
  intros Hlen. unfold pss10_score, spec_score. cbn [answers score].
  rewrite scored_answers. unfold enumerate.
  rewrite fold_score_from, length_map, Hlen. cbn [Nat.add]. lia.
Qed.

Lemma validate_ten (body : list Z) :
  length body = 10%nat ->
  validate_PSS10Request body = Some {| answers := body |}.
Proof. intros H. unfold validate_PSS10Request. now rewrite H. Qed.

Lemma post_ten (body : list Z) :
  length body = 10%nat ->
  post_pss10_score body = Ok200 (pss10_score {| answers := body |}).
Proof. intros H. unfold post_pss10_score. now rewrite validate_ten. Qed.

(** Two bodies of ten answers with the same clamped values get the same
    response. *)
Lemma post_same_clamped (body body' : list Z) :
  length body = 10%nat ->
  map clamp_answer body = map clamp_answer body' ->
  post_pss10_score body = post_pss10_score body'.
Proof.
  intros Hlen Hmap.
  assert (Hlen' : length body' = 10%nat).
  { rewrite <- (length_map clamp_answer body'), <- Hmap, length_map. exact Hlen. }
  rewrite !post_ten by assumption.
  rewrite (pss10_score_clamped body), (pss10_score_clamped body').
  now rewrite Hmap.
Qed.

Lemma clamp_insert (body : list Z) (i : nat) (a b : Z) :
  body !! i = Some a ->
  clamp_answer a = clamp_answer b ->
  map clamp_answer body = map clamp_answer (<[i:=b]> body).
Proof.
  intros Hi Hab.
  change (map clamp_answer) with (fmap (M:=list) clamp_answer).
  rewrite list_fmap_insert, <- Hab.
  symmetry. apply list_insert_id.
  now rewrite list_lookup_fmap, Hi.
Qed.

Lemma nearest_in_range_clamp (a : Z) : nearest_in_range a = clamp_answer a.
Proof.
  unfold nearest_in_range, clamp_answer.
  destruct (Z.ltb_spec a 0); [lia |].
  destruct (Z.ltb_spec 4 a); lia.
Qed.

Lemma nearest_in_range_map (l : list Z) :
  map nearest_in_range l = map clamp_answer l.
Proof. apply map_ext, nearest_in_range_clamp. Qed.

Lemma spec_score_ten (a0 a1 a2 a3 a4 a5 a6 a7 a8 a9 : Z) :
  spec_score [a0; a1; a2; a3; a4; a5; a6; a7; a8; a9]
  = a0 + a1 + a2 + (4 - a3) + (4 - a4) + a5 + (4 - a6) + (4 - a7) + a8 + a9.
Proof.
  cbv [spec_score spec_contribution spec_reverse_positions
       seq map nth existsb Nat.eqb orb fold_right].
  lia.
Qed.

(** Every total from 0 to 40 is the score of some valid answer set. *)
Lemma every_score_attained (s : Z) :
  0 <= s <= 40 ->
  length (answers_scoring s) = 10%nat
  /\ Forall in_range (answers_scoring s)
  /\ score (pss10_score {| answers := answers_scoring s |}) = s.
Proof.
  intros Hs. split; [reflexivity |].
  assert (Hr : Forall in_range (answers_scoring s)).
  { unfold answers_scoring.
    repeat (apply List.Forall_cons; [unfold in_range; lia |]).
    apply List.Forall_nil. }
  split; [exact Hr |].
  rewrite score_of_ten by reflexivity.
  rewrite clamp_answers_id by exact Hr.
  unfold answers_scoring. rewrite spec_score_ten.
  assert (Hn : (Z.to_nat s < 41)%nat) by lia.
  replace s with (Z.of_nat (Z.to_nat s)) by lia.
  revert Hn. generalize (Z.to_nat s). intros n Hn.
  do 41 (destruct n as [| n]; [reflexivity |]). lia.
Qed.

(** Ten valid answers: the response and the bounds of its score. *)
Lemma ten_valid_answers_scored (body : list Z) :
  length body = 10%nat ->
  Forall in_range body ->
  post_pss10_score body = Ok200 (pss10_score {| answers := body |})
  /\ 0 <= score (pss10_score {| answers := body |}) <= 40.
Proof.
  intros Hlen Hr. split; [now apply post_ten |].
  unfold pss10_score. cbn [answers score].
  rewrite scored_answers, clamp_answers_id by assumption.
  pose proof (fold_score_bounds body Hr 0%nat 0) as Hb.
  fold (enumerate body) in Hb. rewrite Hlen in Hb. lia.
Qed.

(** C2.  For ten answers, each in {0,1,2,3,4}, the score of the response is
    the sum over positions 0..9 of [4 - a_i] at the positions 3, 4, 6, 7 and
    of [a_i] at the others, and it lies between 0 and 40. *)
Theorem score_is_reverse_scored_sum (body : list Z) :
  length body = 10%nat ->
  Forall in_range body ->
  exists resp,
    post_pss10_score body = Ok200 resp
    /\ score resp = spec_score body
    /\ 0 <= score resp <= 40.
Proof.
  intros Hlen Hr.
  exists (pss10_score {| answers := body |}).
  destruct (ten_valid_answers_scored body Hlen Hr) as (Hpost & Hb).
  split; [exact Hpost |]. split; [| exact Hb].
  rewrite score_of_ten by assumption. now rewrite clamp_answers_id.
Qed.

Lemma score_is_reverse_scored_sum_witness :
  length [0; 1; 2; 3; 4; 0; 1; 2; 3; 4] = 10%nat
  /\ Forall in_range [0; 1; 2; 3; 4; 0; 1; 2; 3; 4]
  /\ exists resp,
       post_pss10_score [0; 1; 2; 3; 4; 0; 1; 2; 3; 4] = Ok200 resp
       /\ score resp = spec_score [0; 1; 2; 3; 4; 0; 1; 2; 3; 4]
       /\ 0 <= score resp <= 40.
Proof.
  assert (Hr : Forall in_range [0; 1; 2; 3; 4; 0; 1; 2; 3; 4]).
  { repeat (apply List.Forall_cons; [unfold in_range; lia |]).
    apply List.Forall_nil. }
  split; [reflexivity |]. split; [exact Hr |].
  apply (score_is_reverse_scored_sum [0; 1; 2; 3; 4; 0; 1; 2; 3; 4]);
    [reflexivity | exact Hr].
Defined.

(** C5.  For every score [s] from 0 to 40 (each of which some answer set
    attains): the band is "low" iff [s <= 13], "moderate" iff
    [14 <= s <= 26], "high" iff [s >= 27]; 13 is "low", 14 and 26 are
    "moderate", 27 is "high"; each band has its one fixed explanation; and a
    response with score [s] carries that band and its explanation. *)
Theorem band_of_every_score (s : Z) :
  0 <= s <= 40 ->
  (band_of_score s = "low" <-> s <= 13)
  /\ (band_of_score s = "moderate" <-> 14 <= s <= 26)
  /\ (band_of_score s = "high" <-> 27 <= s)
  /\ (band_of_score 13 = "low" /\ band_of_score 14 = "moderate"
      /\ band_of_score 26 = "moderate" /\ band_of_score 27 = "high")
  /\ (explanation_of_band "low" = "Low perceived stress"
      /\ explanation_of_band "moderate"
         = "Moderate perceived stress—consider regular check-ins"
      /\ explanation_of_band "high"
         = "High perceived stress—try immediate coping tools and consider professional support")
  /\ (forall body resp,
        post_pss10_score body = Ok200 resp -> score resp = s ->
        band resp = band_of_score s
        /\ explanation resp = explanation_of_band (band_of_score s))
  /\ (exists body resp,
        post_pss10_score body = Ok200 resp /\ score resp = s).
Proof.
  intros Hs.
  assert (Hband :
    (band_of_score s = "low" <-> s <= 13)
    /\ (band_of_score s = "moderate" <-> 14 <= s <= 26)
    /\ (band_of_score s = "high" <-> 27 <= s)).
  { unfold band_of_score.
    destruct (Z.leb_spec s 13); [| destruct (Z.leb_spec s 26)];
      repeat split; intros; try lia; try discriminate; reflexivity. }
  destruct Hband as (Hlow & Hmod & Hhigh).
  split; [exact Hlow |]. split; [exact Hmod |]. split; [exact Hhigh |].
  split; [repeat split |]. split; [repeat split |]. split.
  - intros body resp Hpost Hscore.
    unfold post_pss10_score in Hpost.
    destruct (validate_PSS10Request body) as [req |]; [| discriminate].
    injection Hpost as <-. subst s. split; reflexivity.
  - destruct (every_score_attained s Hs) as (Hlen & _ & Hscore).
    exists (answers_scoring s), (pss10_score {| answers := answers_scoring s |}).
    split; [now apply post_ten | exact Hscore].
Qed.

Lemma band_of_every_score_witness :
  0 <= 13 <= 40
  /\ (band_of_score 13 = "low" <-> 13 <= 13)
  /\ (band_of_score 13 = "moderate" <-> 14 <= 13 <= 26)
  /\ (band_of_score 13 = "high" <-> 27 <= 13).
Proof.
  split; [lia |].
  destruct (band_of_every_score 13) as (Hlow & Hmod & Hhigh & _); [lia |].
  exact (conj Hlow (conj Hmod Hhigh)).
Defined.

(** C7.  Ten integers are never rejected for their values: the response is
    the one for the list in which every value below 0 is replaced by 0 and
    every value above 4 by 4.  Replacing one negative answer by 0, or one
    answer above 4 by 4, leaves the response unchanged; so -1 is scored as 0
    and 7 as 4. *)
Theorem out_of_range_answers_clamped (body : list Z) :
  length body = 10%nat ->
  (exists resp,
      post_pss10_score body = Ok200 resp
      /\ score resp = spec_score (map nearest_in_range body))
  /\ (forall (i : nat) (a : Z),
        body !! i = Some a -> a < 0 ->
        post_pss10_score body = post_pss10_score (<[i:=0]> body))
  /\ (forall (i : nat) (a : Z),
        body !! i = Some a -> 4 < a ->
        post_pss10_score body = post_pss10_score (<[i:=4]> body))
  /\ nearest_in_range (-1) = 0 /\ nearest_in_range 7 = 4.
Proof.
  intros Hlen. split; [| split; [| split; [| split; reflexivity]]].
  - exists (pss10_score {| answers := body |}).
    split; [now apply post_ten |].
    rewrite nearest_in_range_map. now apply score_of_ten.
  - intros i a Hi Ha. apply post_same_clamped; [assumption |].
    apply (clamp_insert body i a 0 Hi). unfold clamp_answer. lia.
  - intros i a Hi Ha. apply post_same_clamped; [assumption |].
    apply (clamp_insert body i a 4 Hi). unfold clamp_answer. lia.
Qed.

Lemma out_of_range_answers_clamped_witness :
  length [-1; 7; 4; 4; 4; 4; 4; 4; 4; 4] = 10%nat
  /\ post_pss10_score [-1; 7; 4; 4; 4; 4; 4; 4; 4; 4]
     = post_pss10_score [0; 7; 4; 4; 4; 4; 4; 4; 4; 4]
  /\ post_pss10_score [-1; 7; 4; 4; 4; 4; 4; 4; 4; 4]
     = post_pss10_score [-1; 4; 4; 4; 4; 4; 4; 4; 4; 4].
Proof.
  split; [reflexivity |].
  destruct (out_of_range_answers_clamped [-1; 7; 4; 4; 4; 4; 4; 4; 4; 4])
    as (_ & Hneg & Hpos & _); [reflexivity |].
  split.
  - apply (Hneg 0%nat (-1)); [reflexivity | lia].
  - apply (Hpos 1%nat 7); [reflexivity | lia].
Defined.

(** C9.  On every list of exactly ten integers the scorer answers with a
    response; its score lies between 0 and 40; and it is the response given
    to the element-wise clamped list, which is a valid answer set. *)
Theorem scorer_total_on_ten (body : list Z) :
  length body = 10%nat ->
  exists resp,
    post_pss10_score body = Ok200 resp
    /\ 0 <= score resp <= 40
    /\ Forall in_range (map nearest_in_range body)
    /\ post_pss10_score (map nearest_in_range body) = Ok200 resp.
Proof.
  intros Hlen. rewrite nearest_in_range_map.
  pose proof (clamp_answers_in_range body) as Hr.
  assert (Hlen' : length (map clamp_answer body) = 10%nat)
    by now rewrite length_map.
  destruct (ten_valid_answers_scored (map clamp_answer body) Hlen' Hr)
    as (Hpost & Hb).
  exists (pss10_score {| answers := map clamp_answer body |}).
  split; [| split; [exact Hb | split; [exact Hr | exact Hpost]]].
  rewrite post_ten by assumption. now rewrite pss10_score_clamped.
Qed.

Lemma scorer_total_on_ten_witness :
  length [-3; 9; 2; 2; 2; 2; 2; 2; 2; 2] = 10%nat
  /\ exists resp,
       post_pss10_score [-3; 9; 2; 2; 2; 2; 2; 2; 2; 2] = Ok200 resp
       /\ 0 <= score resp <= 40
       /\ Forall in_range (map nearest_in_range [-3; 9; 2; 2; 2; 2; 2; 2; 2; 2])
       /\ post_pss10_score (map nearest_in_range [-3; 9; 2; 2; 2; 2; 2; 2; 2; 2])
          = Ok200 resp.
Proof.
  split; [reflexivity |].
  apply (scorer_total_on_ten [-3; 9; 2; 2; 2; 2; 2; 2; 2; 2]). reflexivity.
Defined.

End PSS10Facts.

(** * Properties of the risk estimator *)

Module PredictFacts.
Import Predict.

#[local] Open Scope Q_scope.

(** *** Comparison, [min] and [max] *)



#[local] Instance Qltb_comp : Proper (Qeq ==> Qeq ==> eq) Qltb.
Proof.
  intros x x' Hx y y' Hy. unfold Qltb.
  now rewrite (Qcompare_comp x x' Hx y y' Hy).
Qed.







#[local] Instance py_min_comp : Proper (Qeq ==> Qeq ==> Qeq) py_min.
Proof.
  intros a a' Ha b b' Hb. unfold py_min.
  rewrite (Qltb_comp b b' Hb a a' Ha). now destruct (Qltb b' a').
Qed.

#[local] Instance py_max_comp : Proper (Qeq ==> Qeq ==> Qeq) py_max.
Proof.
  intros a a' Ha b b' Hb. unfold py_max.
  rewrite (Qltb_comp a a' Ha b b' Hb). now destruct (Qltb a' b').
Qed.




(** *** Validation *)




(** *** Rounding *)




#[local] Instance round_half_even_comp : Proper (Qeq ==> eq) round_half_even.
Proof.
  intros x y Hxy. unfold round_half_even.
  rewrite (Qfloor_comp x y Hxy).
  assert (Hc : (x - inject_Z (Qfloor y) ?= 1 / 2) = (y - inject_Z (Qfloor y) ?= 1 / 2)).
  { apply Qcompare_comp; [now rewrite Hxy | reflexivity]. }
  now rewrite Hc.
Qed.

Lemma py_round_3 (x : Q) :
  py_round x 3 = inject_Z (round_half_even (x * 1000)) / 1000.
Proof. reflexivity. Qed.



Lemma py_round_3_comp (x y : Q) : x == y -> py_round x 3 = py_round y 3.
Proof.
  intros Hxy. rewrite !py_round_3.
  assert (H : x * 1000 == y * 1000) by now rewrite Hxy.
  now rewrite (round_half_even_comp _ _ H).
Qed.


(** *** The components *)










(** *** The claims about [predict] *)












(** *** Requests that differ in [day_of_week] only *)


Lemma Qltb_comp_r (c x y : Q) : x == y -> Qltb c x = Qltb c y.
Proof. intros H. now apply Qltb_comp. Qed.

Lemma Qltb_comp_l (c x y : Q) : x == y -> Qltb x c = Qltb y c.
Proof. intros H. now apply Qltb_comp. Qed.




(** *** The worked example: every indicator at its worst *)

(** C4, as stated, fails on the code: the example's request is answered,
    its weighted sum is not 1.29 (it is 1.24), and its factors lack "very
    low activity", so they are not the six tags. *)
Lemma full_load_not_as_stated :
  post_predict full_load = Ok200 (predict full_load)
  /\ ~ (risk_weighted full_load == 1.29)
  /\ ("very low activity" ∉ factors (predict full_load))
  /\ factors (predict full_load) <> FACTOR_TAGS.
Proof.
  split; [reflexivity |].
  split; [intros H; vm_compute in H; discriminate |].
  split; [| intros H; vm_compute in H; discriminate].
  vm_compute factors.
  rewrite ?elem_of_cons, elem_of_nil. intuition discriminate.
Qed.

(** C4 (amended).  For heart_rate=110, sleep_hours=0, steps=0, mood_score=0,
    hour=10, pss10_score=40 the components are 1, 1, 1 (heart rate, sleep,
    mood), 0.4 (steps), 0.15 (circadian) and 0.3 (baseline); the weighted
    sum is 1.24 and is clamped to 1, so [predicted_level] is 1.0 and the band
    is "high"; the factors contain "elevated heart rate", "short sleep
    duration", "low self-reported mood", "typical peak hours" and "high
    baseline stress", in that order. *)
Theorem full_load_response :
  exists resp,
    post_predict full_load = Ok200 resp
    /\ hr_component full_load == 1
    /\ sleep_component full_load == 1
    /\ mood_component full_load == 1
    /\ steps_component full_load == 0.4
    /\ circadian_component full_load == 0.15
    /\ baseline_component full_load == 0.3
    /\ risk_weighted full_load == 1.24
    /\ risk full_load == 1
    /\ predicted_level resp == 1.0
    /\ risk_band resp = "high"
    /\ sublist [ "elevated heart rate"; "short sleep duration";
                 "low self-reported mood"; "typical peak hours";
                 "high baseline stress" ] (factors resp).
Proof.
  exists (predict full_load).
  split; [reflexivity |].
  do 9 (split; [vm_compute; reflexivity |]).
  split; [vm_compute; reflexivity |].
  vm_compute factors. reflexivity.
Qed.

End PredictFacts.

(** * Further properties of the survey scorer *)

Module PSS10Laws.
Import PSS10 PSS10Facts.

(** A list of length ten, spelled out. *)
Lemma ten_elements (l : list Z) :
  length l = 10%nat ->
  exists a0 a1 a2 a3 a4 a5 a6 a7 a8 a9,
    l = [a0; a1; a2; a3; a4; a5; a6; a7; a8; a9].
Proof.
  intros H.
  do 10 (destruct l as [| ? l]; [discriminate |]).
  destruct l; [| discriminate]. eauto 11.
Qed.

(** The score of ten answers, written out on the clamped values. *)
Lemma score_ten (a0 a1 a2 a3 a4 a5 a6 a7 a8 a9 : Z) :
  score (pss10_score {| answers := [a0; a1; a2; a3; a4; a5; a6; a7; a8; a9] |})
  = clamp_answer a0 + clamp_answer a1 + clamp_answer a2
    + (4 - clamp_answer a3) + (4 - clamp_answer a4) + clamp_answer a5
    + (4 - clamp_answer a6) + (4 - clamp_answer a7)
    + clamp_answer a8 + clamp_answer a9.
Proof.
  rewrite score_of_ten by reflexivity. cbn [map]. apply spec_score_ten.
Qed.

(** The response is a function of the score. *)
Lemma same_score_same_response (l l' : list Z) :
  score (pss10_score {| answers := l |}) = score (pss10_score {| answers := l' |}) ->
  pss10_score {| answers := l |} = pss10_score {| answers := l' |}.
Proof.
  unfold pss10_score. cbn [score answers]. intros H. now rewrite H.
Qed.

Lemma position_sign_cases (i : nat) :
  (i < 10)%nat ->
  position_sign i
  = nth i [1; 1; 1; -1; -1; 1; -1; -1; 1; 1] 0.
Proof.
  intros Hi. unfold position_sign. rewrite reverse_scored_positions.
  do 10 (destruct i as [| i]; [reflexivity |]). lia.
Qed.

(** Changing the answer at one position moves the score by the change of
    the clamped answer, with the sign of the position. *)
Lemma score_after_update (body : list Z) (i : nat) (a b : Z) :
  length body = 10%nat ->
  body !! i = Some a ->
  score (pss10_score {| answers := <[i:=b]> body |})
  = score (pss10_score {| answers := body |})
    + position_sign i * (clamp_answer b - clamp_answer a).
Proof.
  intros Hlen Hi.
  assert (Hlt : (i < 10)%nat).
  { rewrite <- Hlen. apply lookup_lt_is_Some. eauto. }
  rewrite position_sign_cases by exact Hlt.
  destruct (ten_elements body Hlen)
    as (a0 & a1 & a2 & a3 & a4 & a5 & a6 & a7 & a8 & a9 & ->).
  do 10 (destruct i as [| i];
         [ cbn in Hi; injection Hi as ->;
           cbn [list_insert insert nth]; rewrite !score_ten; lia |]).
  lia.
Qed.


(** X2.  In a body of ten answers, replacing the answer [a] at position [i]
    by [b] moves the score by [clamp b - clamp a] at an ordinary position
    and by the opposite at a reverse-scored one (3, 4, 6, 7). *)
Theorem one_answer_changed (body : list Z) (i : nat) (a b : Z) :
  length body = 10%nat ->
  body !! i = Some a ->
  exists resp resp',
    post_pss10_score body = Ok200 resp
    /\ post_pss10_score (<[i:=b]> body) = Ok200 resp'
    /\ score resp'
       = score resp
         + (if bool_decide (i ∈ REVERSE_SCORED) then -1 else 1)
           * (nearest_in_range b - nearest_in_range a).
Proof.
  intros Hlen Hi.
  exists (pss10_score {| answers := body |}),
         (pss10_score {| answers := <[i:=b]> body |}).
  split; [now apply post_ten |].
  split; [apply post_ten; now rewrite length_insert |].
  rewrite !nearest_in_range_clamp.
  now apply score_after_update.
Qed.

Lemma one_answer_changed_witness :
  exists resp resp',
    post_pss10_score [0; 1; 2; 3; 4; 0; 1; 2; 3; 4] = Ok200 resp
    /\ post_pss10_score (<[3%nat:=9]> [0; 1; 2; 3; 4; 0; 1; 2; 3; 4]) = Ok200 resp'
    /\ score resp'
       = score resp
         + (if bool_decide (3%nat ∈ REVERSE_SCORED) then -1 else 1)
           * (nearest_in_range 9 - nearest_in_range 3).
Proof.
  apply (one_answer_changed [0; 1; 2; 3; 4; 0; 1; 2; 3; 4] 3 3 9); reflexivity.
Defined.

(** X3.  Mirroring every answer of a valid answer set ([a] becomes [4 - a])
    mirrors the score: [s] becomes [40 - s]. *)
Theorem complement_mirrors_score (body : list Z) :
  length body = 10%nat ->
  Forall in_range body ->
  exists resp resp',
    post_pss10_score body = Ok200 resp
    /\ post_pss10_score (complement_answers body) = Ok200 resp'
    /\ score resp' = 40 - score resp.
Proof.
  intros Hlen Hr.
  exists (pss10_score {| answers := body |}),
         (pss10_score {| answers := complement_answers body |}).
  split; [now apply post_ten |].
  split; [apply post_ten; unfold complement_answers; now rewrite length_map |].
  destruct (ten_elements body Hlen)
    as (a0 & a1 & a2 & a3 & a4 & a5 & a6 & a7 & a8 & a9 & ->).
  rewrite !Forall_cons in Hr. unfold in_range in Hr.
  unfold complement_answers. cbn [map]. rewrite !score_ten.
  rewrite !clamp_answer_id by (unfold in_range; lia). lia.
Qed.

Lemma complement_mirrors_score_witness :
  exists resp resp',
    post_pss10_score [0; 1; 2; 3; 4; 0; 1; 2; 3; 4] = Ok200 resp
    /\ post_pss10_score (complement_answers [0; 1; 2; 3; 4; 0; 1; 2; 3; 4])
       = Ok200 resp'
    /\ score resp' = 40 - score resp.
Proof.
  apply (complement_mirrors_score [0; 1; 2; 3; 4; 0; 1; 2; 3; 4]);
    [reflexivity |].
  repeat (apply List.Forall_cons; [unfold in_range; lia |]).
  apply List.Forall_nil.
Defined.

(** X4.  Among valid answer sets the extreme scores are attained once each:
    the score is 0 only for 0 at every ordinary position and 4 at every
    reverse-scored one, and 40 only for the mirror image. *)
Theorem extreme_scores_unique (body : list Z) :
  length body = 10%nat ->
  Forall in_range body ->
  (score (pss10_score {| answers := body |}) = 0
   <-> body = [0; 0; 0; 4; 4; 0; 4; 4; 0; 0])
  /\ (score (pss10_score {| answers := body |}) = 40
      <-> body = [4; 4; 4; 0; 0; 4; 0; 0; 4; 4]).
Proof.
  intros Hlen Hr.
  destruct (ten_elements body Hlen)
    as (a0 & a1 & a2 & a3 & a4 & a5 & a6 & a7 & a8 & a9 & ->).
  rewrite !Forall_cons in Hr. unfold in_range in Hr.
  rewrite score_ten.
  rewrite !clamp_answer_id by (unfold in_range; lia).
  split; (split; [intros H | intros H; injection H; lia]).
  - assert (a0 = 0 /\ a1 = 0 /\ a2 = 0 /\ a3 = 4 /\ a4 = 4 /\ a5 = 0
            /\ a6 = 4 /\ a7 = 4 /\ a8 = 0 /\ a9 = 0) by lia.
    intuition congruence.
  - assert (a0 = 4 /\ a1 = 4 /\ a2 = 4 /\ a3 = 0 /\ a4 = 0 /\ a5 = 4
            /\ a6 = 0 /\ a7 = 0 /\ a8 = 4 /\ a9 = 4) by lia.
    intuition congruence.
Qed.

Lemma extreme_scores_unique_witness :
  score (pss10_score {| answers := [0; 0; 0; 4; 4; 0; 4; 4; 0; 0] |}) = 0
  <-> [0; 0; 0; 4; 4; 0; 4; 4; 0; 0] = [0; 0; 0; 4; 4; 0; 4; 4; 0; 0].
Proof.
  apply (extreme_scores_unique [0; 0; 0; 4; 4; 0; 4; 4; 0; 0]);
    [reflexivity |].
  repeat (apply List.Forall_cons; [unfold in_range; lia |]).
  apply List.Forall_nil.
Defined.

(** X5.  Exchanging the answers at two positions of the same kind (both
    reverse-scored, or both ordinary) leaves the whole response unchanged. *)
Theorem same_kind_answers_exchange (body : list Z) (i j : nat) (a b : Z) :
  length body = 10%nat ->
  body !! i = Some a ->
  body !! j = Some b ->
  bool_decide (i ∈ REVERSE_SCORED) = bool_decide (j ∈ REVERSE_SCORED) ->
  post_pss10_score (<[i:=b]> (<[j:=a]> body)) = post_pss10_score body.
Proof.
  intros Hlen Hi Hj Hkind.
  rewrite !post_ten by (rewrite ?length_insert; exact Hlen).
  f_equal. apply same_score_same_response.
  destruct (decide (i = j)) as [-> | Hne].
  - assert (a = b) by congruence. subst b.
    rewrite list_insert_insert_eq, list_insert_id by exact Hi. reflexivity.
  - rewrite (score_after_update (<[j:=a]> body) i a b).
    + rewrite (score_after_update body j b a Hlen Hj).
      unfold position_sign. rewrite Hkind. lia.
    + now rewrite length_insert.
    + rewrite list_lookup_insert_ne by congruence. exact Hi.
Qed.

Lemma same_kind_answers_exchange_witness :
  post_pss10_score (<[0%nat:=2]> (<[2%nat:=0]> [0; 1; 2; 3; 4; 0; 1; 2; 3; 4]))
  = post_pss10_score [0; 1; 2; 3; 4; 0; 1; 2; 3; 4].
Proof.
  apply (same_kind_answers_exchange [0; 1; 2; 3; 4; 0; 1; 2; 3; 4] 0 2 0 2);
    reflexivity.
Defined.

End PSS10Laws.

(** * Further properties of the risk estimator *)

Module PredictLaws.
Import Predict PredictFacts.

#[local] Open Scope Q_scope.

(** *** Bounds and monotonicity of the parts *)




















(** The response is determined by the six components. *)
Lemma predict_by_components (r1 r2 : PredictRequest) :
  hr_component r1 == hr_component r2 ->
  sleep_component r1 == sleep_component r2 ->
  mood_component r1 == mood_component r2 ->
  steps_component r1 == steps_component r2 ->
  circadian_component r1 == circadian_component r2 ->
  baseline_component r1 == baseline_component r2 ->
  predict r1 = predict r2.
Proof.
  intros Hhr Hsl Hmo Hst Hci Hba.
  assert (Hrisk : risk r1 == risk r2).
  { unfold risk. apply py_max_comp; [reflexivity |].
    apply py_min_comp; [reflexivity |].
    unfold risk_weighted. now rewrite Hhr, Hsl, Hmo, Hst, Hci, Hba. }
  unfold predict. f_equal.
  - now apply py_round_3_comp.
  - unfold band_of_risk.
    now rewrite (Qltb_comp_l 0.33 _ _ Hrisk), (Qltb_comp_l 0.66 _ _ Hrisk).
  - unfold factors_of.
    now rewrite (Qltb_comp_r 0.6 _ _ Hhr), (Qltb_comp_r 0.6 _ _ Hsl),
      (Qltb_comp_r 0.6 _ _ Hmo), (Qltb_comp_r 0.4 _ _ Hst),
      (Qltb_comp_r 0 _ _ Hci), (Qltb_comp_r 0.15 _ _ Hba).
Qed.



(** *** Saturation *)





(** *** The factors in terms of the request *)












(** *** The baseline, the rounding and the all-clear *)

(** X11.  Leaving the baseline out is the same as giving a baseline of 0:
    the two requests get the same answer, be it a response or a
    rejection. *)
Theorem no_baseline_is_baseline_zero (req : PredictRequest) :
  post_predict (with_pss10_score req None)
  = post_predict (with_pss10_score req (Some 0%Z)).
Proof.
  assert (Hv : validate_PredictRequest (with_pss10_score req None)
               = validate_PredictRequest (with_pss10_score req (Some 0%Z))).
  { unfold validate_PredictRequest, with_pss10_score.
    cbn [heart_rate sleep_hours steps day_of_week hour mood_score pss10_score].
    reflexivity. }
  unfold post_predict. rewrite Hv.
  destruct (validate_PredictRequest _); [| reflexivity].
  f_equal. apply predict_by_components; reflexivity.
Qed.





End PredictLaws.

(** * The survey score as the baseline of the estimator *)

Module Composition.
Import Predict PredictFacts PredictLaws.

#[local] Open Scope Q_scope.




End Composition.

(** * Properties of the diagnostic endpoint *)

Module DiagnosticsFacts.
Import Diagnostics.

(** *** Statements that keep a property *)

Section Preserves.
Context (P : gmap string value -> Prop).

Lemma preserves_ret {A : Type} (a : A) : preserves P (ret a).
Proof. intros r r' o HP [= <- _]. exact HP. Qed.

Lemma preserves_eval {A : Type} (x : outcome A) : preserves P (eval x).
Proof. intros r r' o HP [= <- _]. exact HP. Qed.

Lemma preserves_setitem (key : string) (v : value) :
  (forall r, P r -> P (<[key := v]> r)) -> preserves P (setitem key v).
Proof. intros H r r' o HP [= <- _]. now apply H. Qed.

Lemma preserves_bind {A B : Type} (c : stmt A) (k : A -> stmt B) :
  preserves P c -> (forall a, preserves P (k a)) -> preserves P (bind c k).
Proof.
  intros Hc Hk r r' o HP. unfold bind.
  destruct (c r) as [r1 [a | e]] eqn:E; intros Hrun.
  - apply (Hk a r1 r' o); [| exact Hrun]. now apply (Hc r r1 (Returns a)).
  - injection Hrun as <- _. now apply (Hc r r1 (Raises e)).
Qed.

Lemma preserves_try (body : stmt unit) (handler : exn -> option (stmt unit)) :
  preserves P body ->
  (forall e h, handler e = Some h -> preserves P h) ->
  preserves P (try_except body handler).
Proof.
  intros Hb Hh r r' o HP. unfold try_except.
  destruct (body r) as [r1 [u | e]] eqn:E.
  - intros [= <- _]. now apply (Hb r r1 (Returns u)).
  - assert (HP1 : P r1) by now apply (Hb r r1 (Raises e)).
    destruct (handler e) as [h |] eqn:Eh.
    + intros Hrun. now apply (Hh e h Eh r1 r' o).
    + intros [= <- _]. exact HP1.
Qed.
End Preserves.

(** Every assignment of the probe is to one of four keys, or stores at most
    ten collections. *)
Lemma probe_preserves (P : gmap string value -> Prop)
  (import_db : outcome (option database)) :
  (forall v r, P r -> P (<["database" := v]> r)) ->
  (forall v r, P r -> P (<["database_url" := v]> r)) ->
  (forall v r, P r -> P (<["database_name" := v]> r)) ->
  (forall v r, P r -> P (<["connection_status" := v]> r)) ->
  (forall cs r, P r -> P (<["collections" := VList (take 10 cs)]> r)) ->
  preserves P (probe_database import_db).
Proof.
  intros Hdb Hurl Hname Hstatus Hcoll.
  unfold probe_database, list_collections.
  apply preserves_try.
  - apply preserves_bind; [apply preserves_eval |].
    intros [db |]; [| apply preserves_setitem, Hdb].
    repeat first
      [ apply preserves_bind; [| intros ?]
      | apply preserves_eval
      | apply preserves_ret
      | apply preserves_setitem; solve [auto]
      | match goal with |- preserves _ (if ?b then _ else _) => destruct b end
      | apply preserves_try ].
    intros e h. destruct (is_Exception e); [| discriminate].
    intros [= <-]. apply preserves_setitem, Hdb.
  - intros e h.
    destruct (is_ImportError e); [| destruct (is_Exception e)];
      try discriminate; intros [= <-]; apply preserves_setitem, Hdb.
Qed.

Lemma initial_well_formed : well_formed initial_response.
Proof.
  unfold well_formed, initial_response. split; [| split].
  - unfold response_keys. rewrite !dom_insert_L, dom_empty_L.
    apply set_eq. intros k.
    rewrite !elem_of_union, !elem_of_singleton, elem_of_empty. tauto.
  - reflexivity.
  - exists []. split; [reflexivity | cbn; lia].
Qed.

Lemma well_formed_insert (key : string) (v : value) (r : gmap string value) :
  key ∈ response_keys -> key <> "backend" -> key <> "collections" ->
  well_formed r -> well_formed (<[key := v]> r).
Proof.
  intros Hk Hb Hc (Hdom & Hback & l & Hl & Hlen). split; [| split].
  - rewrite dom_insert_L, Hdom. apply set_eq. intros k.
    rewrite elem_of_union, elem_of_singleton. split; [| tauto].
    intros [-> | H]; assumption.
  - rewrite lookup_insert_ne by congruence. exact Hback.
  - exists l. split; [| exact Hlen].
    rewrite lookup_insert_ne by congruence. exact Hl.
Qed.

Lemma well_formed_collections (cs : list value) (r : gmap string value) :
  well_formed r -> well_formed (<["collections" := VList (take 10 cs)]> r).
Proof.
  intros (Hdom & Hback & _). split; [| split].
  - rewrite dom_insert_L, Hdom. apply set_eq. intros k.
    rewrite elem_of_union, elem_of_singleton. split; [| tauto].
    intros [-> | H]; [| assumption].
    unfold response_keys. rewrite !elem_of_union, !elem_of_singleton. tauto.
  - rewrite lookup_insert_ne by discriminate. exact Hback.
  - exists (take 10 cs). split; [apply lookup_insert_eq |].
    rewrite length_take. lia.
Qed.

Lemma key_of_response (key : string) :
  key ∈ response_keys
  <-> key = "backend" \/ key = "database" \/ key = "database_url"
      \/ key = "database_name" \/ key = "connection_status"
      \/ key = "collections".
Proof.
  unfold response_keys. rewrite !elem_of_union, !elem_of_singleton. tauto.
Qed.

(** X15.  Whenever the diagnostic endpoint returns, its response has
    exactly the six keys it started with, "backend" still reads
    "✅ Running", and "collections" is a list of at most ten entries. *)
Theorem diagnostic_response_shape
  (import_db : outcome (option database)) (environ : gmap string string)
  (response : gmap string value) :
  test_database import_db environ = Returns response ->
  dom response = response_keys
  /\ response !! "backend" = Some (VStr "✅ Running")
  /\ exists l, response !! "collections" = Some (VList l)
               /\ (length l <= 10)%nat.
Proof.
  unfold test_database.
  destruct (probe_database import_db initial_response) as [r [u | e]] eqn:E;
    [| discriminate].
  intros [= <-].
  assert (Hpres : preserves well_formed (probe_database import_db)).
  { apply probe_preserves; intros;
      try (apply well_formed_collections; assumption);
      apply well_formed_insert; try assumption; try discriminate;
      apply key_of_response; tauto. }
  pose proof (Hpres _ _ _ initial_well_formed E) as Hr.
  apply well_formed_insert; try discriminate; [apply key_of_response; tauto |].
  apply well_formed_insert; try discriminate; [apply key_of_response; tauto |].
  exact Hr.
Qed.

Lemma diagnostic_response_shape_witness :
  dom (<["database_name" := VStr "❌ Not Set"]>
         (<["database_url" := VStr "❌ Not Set"]>
            (<["database" := VStr "⚠️  Available but not initialized"]>
               initial_response)))
  = response_keys.
Proof.
  apply (diagnostic_response_shape (Returns None) ∅). reflexivity.
Defined.



(** X17.  The diagnostic endpoint lets an exception through only if it is
    not an [Exception] (a bare [BaseException]); everything else it turns
    into a response. *)
Theorem only_non_exceptions_escape
  (import_db : outcome (option database)) (environ : gmap string string)
  (e : exn) :
  test_database import_db environ = Raises e ->
  is_Exception e = false.
Proof.
  unfold test_database, probe_database, try_except.
  match goal with
  | |- context [bind ?c ?k initial_response] =>
      destruct (bind c k initial_response) as [r [u | e1]]
  end; [discriminate |].
  destruct (is_ImportError e1) eqn:E1.
  - unfold setitem. discriminate.
  - destruct (is_Exception e1) eqn:E2.
    + unfold setitem. discriminate.
    + now intros [= <-].
Qed.

Lemma only_non_exceptions_escape_witness :
  is_Exception {| class := NotException; str := "interrupted" |} = false.
Proof.
  apply (only_non_exceptions_escape
           (Raises {| class := NotException; str := "interrupted" |}) ∅).
  reflexivity.
Defined.

(** *** What the response says about the database *)

(** X18.  In a response of the diagnostic endpoint "connection_status" is
    "Connected" exactly when the import gave a database and its name was
    read without an exception; "database" is "✅ Connected & Working"
    exactly when, moreover, the collections were listed, and "collections"
    then holds the first ten of them. *)
Theorem connected_and_working
  (import_db : outcome (option database)) (environ : gmap string string)
  (response : gmap string value) :
  test_database import_db environ = Returns response ->
  (response !! "connection_status" = Some (VStr "Connected")
   <-> exists db, import_db = Returns (Some db) /\ name_is_read db)
  /\ (response !! "database" = Some (VStr "✅ Connected & Working")
      <-> exists db cs,
            import_db = Returns (Some db) /\ name_is_read db
            /\ list_collection_names db = Returns cs
            /\ response !! "collections" = Some (VList (take 10 cs)))
  /\ (response !! "database" = Some (VStr "✅ Connected & Working") ->
      response !! "connection_status" = Some (VStr "Connected")).
Proof.
  unfold name_is_read. run_test_database import_db;
    try discriminate; intros [= <-]; lookup_response; cbn [String.append].
  all: (split; [| split]).
  all: try reflexivity.
  all: try (intros H; differ H).
  all: try (intros _; reflexivity).
  all: (split; [first [intros H; differ H | intros _] |]).
  all: try (intros _; reflexivity).
  all: try (eexists; split; [reflexivity | prove_read]).
  all: try (eexists; eexists; split;
            [reflexivity | split; [prove_read | split; reflexivity]]).
  all: try (intros (db & [=] & _); fail).
  all: try (intros (db & cs & [=] & _); fail).
  all: try (intros (db & [= <-] & H); refute_read H; fail).
  all: intros (db & cs & [= <-] & H & H' & _);
       first [discriminate H' | refute_read H].
Qed.

Lemma connected_and_working_witness :
  (<["database_name" := VStr "❌ Not Set"]>
     (<["database_url" := VStr "❌ Not Set"]>
        (<["database" := VStr "⚠️  Available but not initialized"]>
           initial_response))) !! "connection_status"
  = Some (VStr "Connected")
  <-> exists db, Returns None = Returns (Some db) /\ name_is_read db.
Proof.
  apply (connected_and_working (Returns None) ∅). reflexivity.
Defined.







End DiagnosticsFacts.
